(** * Correlation & Regression Visualizer: numerical core and interaction state

    A shallow embedding of the JavaScript sources
      - src/src/App.jsx        (module [App], the current application),
      - src/src/App_old.jsx    (module [AppOld]),
      - src/unnamed/part_000   (module [Part000]),
      - src/unnamed/part_001   (module [Part001]).

    Numbers.  The sources are read in two ways.
      - In exact arithmetic a JavaScript number is a real number: [+ - * /],
        [Math.sqrt], [Math.min] and [Math.max] are the exact operations of
        [R].  Rounding, overflow, infinities and NaN are outside this
        reading; the tests [v === 0], [!v] and [v || 1] are then all the
        test [v = 0].  It is the reading of the statements about control
        flow, stored values, draws and exact identities.
      - In module [F64] a number is what it is at run time, an IEEE 754
        binary64 value, and the operations are the rounded ones of Rocq's
        primitive floats.  [v === 0] is true of both zeros and false of
        NaN, [!v] is true of NaN as well.  This reading carries
        [computeCorrelation] and [generateCorrelatedData], whose results
        depend on rounding, underflow and overflow; it runs on concrete
        arrays.

    Arrays are lists; an array of [{x, y}] objects is a [list point].
    Reading an array past its end yields [undefined] in JavaScript, which
    arithmetic turns into NaN: [nth] yields NaN in [F64], and 0 in exact
    arithmetic, where it is outside the model.  Every caller in the sources
    passes arrays of equal length, and the properties below assume it where
    it matters.

    Randomness.  [randn()] is the only effect of the numerical core.  It is
    threaded explicitly: a generator state [rng] and a function
    [randn : rng -> R * rng] returning the draw and the next state.  The
    body of [randn] is modelled in module [BoxMuller] over a source for
    [Math.random]; its two [while] loops carry a bound on their draws. *)

From Stdlib Require Import PrimFloat.
From Stdlib Require Import Reals Lra Lia List ZArith Bool.
Import ListNotations.
Open Scope R_scope.

(** ** JavaScript primitives used by the sources *)

(** [v === 0] on numbers. *)
Definition isZero (v : R) : bool :=
  if Req_dec_T v 0 then true else false.

(** [!v] on numbers: the only falsy real is 0. *)
Definition falsy (v : R) : bool := isZero v.

(** [v || d]: [d] when [v] is falsy, [v] otherwise. *)
Definition orElse (v d : R) : R :=
  if falsy v then d else v.

(** [arr.reduce((a, b) => a + b, 0)]. *)
Definition sumArray (arr : list R) : R :=
  fold_left (fun a b => a + b) arr 0.

(** [Math.min(...arr)] and [Math.max(...arr)].  On the empty array JavaScript
    yields [+Infinity] and [-Infinity]; the callers never use that value (the
    loops that read it run zero times), here it is 0. *)
Definition Math_min (arr : list R) : R :=
  match arr with
  | [] => 0
  | a :: rest => fold_left Rmin rest a
  end.

Definition Math_max (arr : list R) : R :=
  match arr with
  | [] => 0
  | a :: rest => fold_left Rmax rest a
  end.

(** The object [{ x: ..., y: ... }]. *)
Record point : Type := mkPoint { x : R; y : R }.

(** The object returned by [computeRegressionLine].  App.jsx and part_001
    build [{ slope, intercept }]; App_old.jsx and part_000 build
    [{ slope, intercept, meanY }].  Reading a property the literal does not
    list gives [undefined]: [meanY = None]. *)
Record RegressionResult : Type := mkResult {
  slope : R;
  intercept : R;
  meanY : option R
}.

(** ** computeCorrelation (App.jsx 25-48; the same text in App_old.jsx and
    part_001) *)

(** The accumulators [numerator], [denomX], [denomY] of the [for] loop. *)
Record corrAcc : Type := mkCorrAcc {
  numerator : R;
  denomX : R;
  denomY : R
}.

(** One iteration of [for (let i = 0; i < n; i++)]. *)
Definition corrStep (xVals yVals : list R) (meanX meanY : R)
    (acc : corrAcc) (i : nat) : corrAcc :=
  let dx := nth i xVals 0 - meanX in
  let dy := nth i yVals 0 - meanY in
  {| numerator := numerator acc + dx * dy;
     denomX := denomX acc + dx * dx;
     denomY := denomY acc + dy * dy |}.

Definition corrLoop (xVals yVals : list R) (meanX meanY : R) (n : nat)
    : corrAcc :=
  fold_left (corrStep xVals yVals meanX meanY) (seq 0 n) (mkCorrAcc 0 0 0).

Definition computeCorrelation (xVals yVals : list R) : R :=
  let n := length xVals in
  if (n <=? 1)%nat then 0
  else
    let meanX := sumArray xVals / INR n in
    let meanY := sumArray yVals / INR n in
    let acc := corrLoop xVals yVals meanX meanY n in
    if isZero (denomX acc) || isZero (denomY acc) then 0
    else numerator acc / sqrt (denomX acc * denomY acc).

(** ** computeRegressionLine *)

(** The accumulators [numerator], [denominator] of [data.forEach]. *)
Record regAcc : Type := mkRegAcc {
  regNumerator : R;
  regDenominator : R
}.

Definition regStep (meanX meanY : R) (acc : regAcc) (d : point) : regAcc :=
  {| regNumerator := regNumerator acc + (x d - meanX) * (y d - meanY);
     regDenominator := regDenominator acc + (x d - meanX) * (x d - meanX) |}.

Definition regLoop (data : list point) (meanX meanY : R) : regAcc :=
  fold_left (regStep meanX meanY) data (mkRegAcc 0 0).

(** ** generateCorrelatedData (App.jsx 77-118; the same computation in the
    three other files) *)

Section Generator.

Variable rng : Type.
Variable randn : rng -> R * rng.

(** The arrays [xRaw], [yRaw] and the generator after the first loop. *)
Record rawData : Type := mkRaw {
  xRaw : list R;
  yRaw : list R;
  rawGen : rng
}.

(** [k] iterations of the first [for] loop; [push] appends at the end. *)
Fixpoint rawLoop (corr : R) (k : nat) (st : rawData) : rawData :=
  match k with
  | O => st
  | S k' =>
      let (z1, g1) := randn (rawGen st) in
      let (z2, g2) := randn g1 in
      let xVal := z1 in
      let yVal := corr * z1 + sqrt (1 - corr * corr) * z2 in
      rawLoop corr k' (mkRaw (xRaw st ++ [xVal]) (yRaw st ++ [yVal]) g2)
  end.

(** [const range = max - min || 1]. *)
Definition rangeOf (minRaw maxRaw : R) : R :=
  orElse (maxRaw - minRaw) 1.

(** [xMin + ((raw - minRaw) / rangeRaw) * (xMax - xMin)]. *)
Definition scale (xMin xMax minRaw rangeRaw raw : R) : R :=
  xMin + ((raw - minRaw) / rangeRaw) * (xMax - xMin).

(** One iteration of the second [for] loop. *)
Definition scaleStep (xs ys : list R) (xMin xMax : R)
    (minXraw rangeXraw minYraw rangeYraw : R)
    (data : list point) (i : nat) : list point :=
  let scaledX := scale xMin xMax minXraw rangeXraw (nth i xs 0) in
  let scaledY := scale xMin xMax minYraw rangeYraw (nth i ys 0) in
  data ++ [{| x := scaledX; y := scaledY |}].

(** Everything after the first loop. *)
Definition rescale (xs ys : list R) (k : nat) (xMin xMax : R)
    : list point :=
  let minXraw := Math_min xs in
  let maxXraw := Math_max xs in
  let rangeXraw := rangeOf minXraw maxXraw in
  let minYraw := Math_min ys in
  let maxYraw := Math_max ys in
  let rangeYraw := rangeOf minYraw maxYraw in
  fold_left
    (scaleStep xs ys xMin xMax minXraw rangeXraw minYraw rangeYraw)
    (seq 0 k) [].

(** The number of iterations of [for (let i = 0; i < n; i++)] for an
    integer [n]. *)
Definition iterations (n : Z) : nat := Z.to_nat n.

(** The raw arrays drawn for [(corr, n)] from generator state [g]. *)
Definition drawRaw (corr : R) (n : Z) (g : rng) : rawData :=
  rawLoop corr (iterations n) (mkRaw [] [] g).

Definition generateCorrelatedData (corr : R) (n : Z) (xMin xMax : R)
    (g : rng) : list point * rng :=
  let raw := drawRaw corr n g in
  (rescale (xRaw raw) (yRaw raw) (iterations n) xMin xMax, rawGen raw).

End Generator.

Arguments mkRaw {rng}.
Arguments xRaw {rng}.
Arguments yRaw {rng}.
Arguments rawGen {rng}.
Arguments rawLoop {rng}.
Arguments drawRaw {rng}.
Arguments generateCorrelatedData {rng}.

(** ** Numbering the draws of a random source *)

Section Draws.

(** A source of random numbers in state-passing form: [Math.random] for
    [randn], [randn] for [generateCorrelatedData]. *)
Variable state : Type.
Variable source : state -> R * state.

(** The state of the source after [k] draws, and the [k]-th draw from [g]
    (counting from 0). *)
Definition after (k : nat) (g : state) : state :=
  Nat.iter k (fun s => snd (source s)) g.

Definition draw (k : nat) (g : state) : R := fst (source (after k g)).

(** The first non-zero draw from [g] is the [k]-th. *)
Definition firstNonzeroAt (k : nat) (g : state) : Prop :=
  (forall j, (j < k)%nat -> draw j g = 0) /\ draw k g <> 0.

End Draws.

Arguments after {state}.
Arguments draw {state}.
Arguments firstNonzeroAt {state}.

(** ** randn (App.jsx 16-22; the same text in the three other files) *)

Module BoxMuller.

Section Source.

(** [Math.random()]: a state of the uniform source and the function that
    draws from it. *)
Variable urng : Type.
Variable random : urng -> R * urng.

(** [while (u === 0) u = Math.random();] entered with the value [u].  The
    loop need not end; [fuel] bounds the number of draws, and [None] is a
    loop still running after [fuel] draws. *)
Fixpoint whileZero (fuel : nat) (u : R) (g : urng) {struct fuel}
    : option (R * urng) :=
  if isZero u then
    match fuel with
    | O => None
    | S fuel' => let (u', g') := random g in whileZero fuel' u' g'
    end
  else Some (u, g).

(** [let u = 0; let v = 0;], the two loops, and the returned product. *)
Definition randn (fuel : nat) (g : urng) : option (R * urng) :=
  match whileZero fuel 0 g with
  | None => None
  | Some (u, g1) =>
      match whileZero fuel 0 g1 with
      | None => None
      | Some (v, g2) => Some (sqrt (-2 * ln u) * cos (2 * PI * v), g2)
      end
  end.

End Source.

Arguments whileZero {urng}.
Arguments randn {urng}.

(** A source on the state [nat] whose first draw is 0 and whose every later
    draw is 1/2. *)
Definition zeroThenHalf (g : nat) : R * nat :=
  (match g with O => 0 | S _ => 1 / 2 end, S g).

End BoxMuller.

(** ** The component state and its event handlers *)

(** The four [useState] cells of the component. *)
Record hooks : Type := mkHooks {
  corr : R;
  sampleSize : Z;
  fitLine : bool;
  showDistances : bool
}.

Definition setCorr (v : R) (h : hooks) : hooks :=
  {| corr := v; sampleSize := sampleSize h;
     fitLine := fitLine h; showDistances := showDistances h |}.

Definition setSampleSize (v : Z) (h : hooks) : hooks :=
  {| corr := corr h; sampleSize := v;
     fitLine := fitLine h; showDistances := showDistances h |}.

Definition setFitLine (v : bool) (h : hooks) : hooks :=
  {| corr := corr h; sampleSize := sampleSize h;
     fitLine := v; showDistances := showDistances h |}.

Definition setShowDistances (v : bool) (h : hooks) : hooks :=
  {| corr := corr h; sampleSize := sampleSize h;
     fitLine := fitLine h; showDistances := v |}.

(** What the presentation layer sends: the value of the correlation slider
    after [parseFloat], the value of the sample-size slider after
    [parseInt(_, 10)], or a click on the fit button. *)
Inductive event : Type :=
  | CorrChange (value : R)
  | SampleSizeChange (value : Z)
  | FitClick.

(** The [min] and [max] attributes of the two range inputs. *)
Definition corrMin : R := -1.
Definition corrMax : R := 1.
Definition sampleSizeMin : Z := 10.
Definition sampleSizeMax : Z := 200.

(** The display mode of the specification, read off [fitLine]. *)
Inductive DisplayMode : Type := Baseline | Fitted.

Definition displayMode (h : hooks) : DisplayMode :=
  if fitLine h then Fitted else Baseline.

Module Handlers.

(** App.jsx 203-207, 219-223, 232-235 (the same in App_old.jsx and
    part_001). *)
Definition onCorrChange (value : R) (h : hooks) : hooks :=
  setCorr value (setShowDistances false (setFitLine false h)).

Definition onSampleSizeChange (value : Z) (h : hooks) : hooks :=
  setSampleSize value (setShowDistances false (setFitLine false h)).

Definition onFitClick (h : hooks) : hooks :=
  setShowDistances true (setFitLine true h).

Definition handle (e : event) (h : hooks) : hooks :=
  match e with
  | CorrChange v => onCorrChange v h
  | SampleSizeChange v => onSampleSizeChange v h
  | FitClick => onFitClick h
  end.

(** A session: the events handled one after the other. *)
Definition run (es : list event) (h : hooks) : hooks :=
  fold_left (fun h' e => handle e h') es h.

End Handlers.

Module Handlers000.

(** part_000: the setters are called in the other order,
    [setCorr(...); setFitLine(false); setShowDistances(false)]. *)
Definition onCorrChange (value : R) (h : hooks) : hooks :=
  setShowDistances false (setFitLine false (setCorr value h)).

Definition onSampleSizeChange (value : Z) (h : hooks) : hooks :=
  setShowDistances false (setFitLine false (setSampleSize value h)).

Definition onFitClick (h : hooks) : hooks :=
  setShowDistances true (setFitLine true h).

Definition handle (e : event) (h : hooks) : hooks :=
  match e with
  | CorrChange v => onCorrChange v h
  | SampleSizeChange v => onSampleSizeChange v h
  | FitClick => onFitClick h
  end.

End Handlers000.

(** ** The four files: regression and the values derived on each render *)

(** The line drawn for one residual: the two-element array
    [[{ x: d.x, y: d.y }, { x: d.x, y: predictedY }]]. *)
Definition residualLine (slope' intercept' : R) (d : point) : list point :=
  let predictedY := slope' * x d + intercept' in
  [ {| x := x d; y := y d |}; {| x := x d; y := predictedY |} ].

Module App.

(** src/src/App.jsx 51-73. *)
Definition computeRegressionLine (data : list point) : RegressionResult :=
  let n := length data in
  if (n =? 0)%nat then {| slope := 0; intercept := 0; meanY := None |}
  else
    let meanX := fold_left (fun acc d => acc + x d) data 0 / INR n in
    let meanY' := fold_left (fun acc d => acc + y d) data 0 / INR n in
    let acc := regLoop data meanX meanY' in
    if isZero (regDenominator acc)
    then {| slope := 0; intercept := meanY'; meanY := None |}
    else
      let slope' := regNumerator acc / regDenominator acc in
      let intercept' := meanY' - slope' * meanX in
      {| slope := slope'; intercept := intercept'; meanY := None |}.

(** App.jsx 121-124: the initial [useState] values. *)
Definition initial : hooks :=
  {| corr := 0; sampleSize := 200; fitLine := false; showDistances := false |}.

(** App.jsx 145-150: the component's own [meanY], kept apart from the
    regression result. *)
Definition meanY (scatterData : list point) : R :=
  if (length scatterData =? 0)%nat then 0
  else fold_left (fun sum d => sum + y d) scatterData 0
       / INR (length scatterData).

(** App.jsx 155-156. *)
Definition displayedSlope (h : hooks) (scatterData : list point) : R :=
  if fitLine h then slope (computeRegressionLine scatterData) else 0.

Definition displayedIntercept (h : hooks) (scatterData : list point) : R :=
  if fitLine h then intercept (computeRegressionLine scatterData)
  else meanY scatterData.

(** App.jsx 165-171. *)
Definition residualLines (scatterData : list point) : list (list point) :=
  let r := computeRegressionLine scatterData in
  map (fun d => residualLine (slope r) (intercept r) d) scatterData.

(** App.jsx 265: [fitLine && showDistances && residualLines.map(...)], the
    residual lines handed to the chart. *)
Definition drawnResiduals (h : hooks) (scatterData : list point)
    : list (list point) :=
  if fitLine h && showDistances h then residualLines scatterData else [].

End App.

Module AppOld.

(** src/src/App_old.jsx 51-75. *)
Definition computeRegressionLine (data : list point) : RegressionResult :=
  let n := length data in
  if (n =? 0)%nat then {| slope := 0; intercept := 0; meanY := Some 0 |}
  else
    let sumX := fold_left (fun acc d => acc + x d) data 0 in
    let sumY := fold_left (fun acc d => acc + y d) data 0 in
    let meanX := sumX / INR n in
    let meanY' := sumY / INR n in
    let acc := regLoop data meanX meanY' in
    if isZero (regDenominator acc)
    then {| slope := 0; intercept := meanY'; meanY := Some meanY' |}
    else
      let slope' := regNumerator acc / regDenominator acc in
      let intercept' := meanY' - slope' * meanX in
      {| slope := slope'; intercept := intercept'; meanY := Some meanY' |}.

Definition initial : hooks :=
  {| corr := 0; sampleSize := 200; fitLine := false; showDistances := false |}.

(** App_old.jsx 140-141: [meanY] is destructured from the regression result;
    the displayed intercept is a number or [undefined]. *)
Definition displayedSlope (h : hooks) (scatterData : list point) : R :=
  if fitLine h then slope (computeRegressionLine scatterData) else 0.

Definition displayedIntercept (h : hooks) (scatterData : list point)
    : option R :=
  let r := computeRegressionLine scatterData in
  if fitLine h then Some (intercept r) else meanY r.

Definition residualLines (scatterData : list point) : list (list point) :=
  let r := computeRegressionLine scatterData in
  map (fun d => residualLine (slope r) (intercept r) d) scatterData.

End AppOld.

Module Part000.

(** src/unnamed/part_000 22-38: the degenerate test is written
    [if (!denomX || !denomY) return 0]. *)
Definition computeCorrelation (xVals yVals : list R) : R :=
  let n := length xVals in
  if (n <=? 1)%nat then 0
  else
    let meanX := sumArray xVals / INR n in
    let meanY := sumArray yVals / INR n in
    let acc := corrLoop xVals yVals meanX meanY n in
    if falsy (denomX acc) || falsy (denomY acc) then 0
    else numerator acc / sqrt (denomX acc * denomY acc).

(** src/unnamed/part_000 41-62: statement for statement the function of
    App_old.jsx. *)
Definition computeRegressionLine : list point -> RegressionResult :=
  AppOld.computeRegressionLine.

Definition initial : hooks :=
  {| corr := 0; sampleSize := 30; fitLine := false; showDistances := false |}.

(** part_000 112-113. *)
Definition displayedSlope (h : hooks) (scatterData : list point) : R :=
  if fitLine h then slope (computeRegressionLine scatterData) else 0.

Definition displayedIntercept (h : hooks) (scatterData : list point)
    : option R :=
  let r := computeRegressionLine scatterData in
  if fitLine h then Some (intercept r) else meanY r.

Definition residualLines (scatterData : list point) : list (list point) :=
  let r := computeRegressionLine scatterData in
  map (fun d => residualLine (slope r) (intercept r) d) scatterData.

End Part000.

Module Part001.

(** src/unnamed/part_001 51-73: statement for statement the function of
    App.jsx. *)
Definition computeRegressionLine : list point -> RegressionResult :=
  App.computeRegressionLine.

Definition initial : hooks :=
  {| corr := 0; sampleSize := 30; fitLine := false; showDistances := false |}.

(** part_001 145-146: before the fit the line is [y = 0]. *)
Definition displayedSlope (h : hooks) (scatterData : list point) : R :=
  if fitLine h then slope (computeRegressionLine scatterData) else 0.

Definition displayedIntercept (h : hooks) (scatterData : list point) : R :=
  if fitLine h then intercept (computeRegressionLine scatterData) else 0.

(** part_001 156-162. *)
Definition residualLines (scatterData : list point) : list (list point) :=
  let r := computeRegressionLine scatterData in
  map (fun d => residualLine (slope r) (intercept r) d) scatterData.

End Part001.

(** ** The numerical core in binary64 *)

(** The same functions with JavaScript's numbers as they are: IEEE 754
    binary64, every operation rounded to nearest, with infinities, signed
    zeros and NaN.  The operations are Rocq's primitive floats, so the
    functions run on concrete arrays. *)

Module F64.

Local Open Scope float_scope.

(** [v === 0]: true of [0] and [-0], false of NaN. *)
Definition isZero (v : float) : bool := PrimFloat.eqb v 0.

(** [!v]: true of [0], [-0] and NaN. *)
Definition falsy (v : float) : bool := PrimFloat.eqb v 0 || is_nan v.

(** [v || d]. *)
Definition orElse (v d : float) : float := if falsy v then d else v.

(** An array length as a number (exact below 2^53). *)
Fixpoint ofNat (n : nat) : float :=
  match n with
  | O => 0
  | S k => ofNat k + 1
  end.

(** [arr.reduce((a, b) => a + b, 0)]. *)
Definition sumArray (arr : list float) : float :=
  fold_left (fun a b => a + b) arr 0.

(** [Math.min] and [Math.max] of two numbers: NaN if either is NaN, and
    [-0] counts as smaller than [0]. *)
Definition min2 (a b : float) : float :=
  if is_nan a then a
  else if is_nan b then b
  else if PrimFloat.ltb b a then b
  else if PrimFloat.ltb a b then a
  else if get_sign a then a else b.

Definition max2 (a b : float) : float :=
  if is_nan a then a
  else if is_nan b then b
  else if PrimFloat.ltb a b then b
  else if PrimFloat.ltb b a then a
  else if get_sign a then b else a.

(** [Math.min(...arr)] and [Math.max(...arr)]; [Infinity] and [-Infinity]
    on the empty array. *)
Definition Math_min (arr : list float) : float :=
  fold_left min2 arr infinity.

Definition Math_max (arr : list float) : float :=
  fold_left max2 arr neg_infinity.

(** The object [{ x: ..., y: ... }]. *)
Record point : Type := mkPoint { x : float; y : float }.

(** computeCorrelation (App.jsx 25-48).  An index past the end of [yVals]
    reads [undefined], which makes the difference NaN. *)
Record corrAcc : Type := mkCorrAcc {
  numerator : float;
  denomX : float;
  denomY : float
}.

Definition corrStep (xVals yVals : list float) (meanX meanY : float)
    (acc : corrAcc) (i : nat) : corrAcc :=
  let dx := nth i xVals nan - meanX in
  let dy := nth i yVals nan - meanY in
  {| numerator := numerator acc + dx * dy;
     denomX := denomX acc + dx * dx;
     denomY := denomY acc + dy * dy |}.

Definition corrLoop (xVals yVals : list float) (meanX meanY : float)
    (n : nat) : corrAcc :=
  fold_left (corrStep xVals yVals meanX meanY) (seq 0 n) (mkCorrAcc 0 0 0).

Definition computeCorrelation (xVals yVals : list float) : float :=
  let n := length xVals in
  if (n <=? 1)%nat then 0
  else
    let meanX := sumArray xVals / ofNat n in
    let meanY := sumArray yVals / ofNat n in
    let acc := corrLoop xVals yVals meanX meanY n in
    if isZero (denomX acc) || isZero (denomY acc) then 0
    else numerator acc / PrimFloat.sqrt (denomX acc * denomY acc).

(** The variant of src/unnamed/part_000 22-38:
    [if (!denomX || !denomY) return 0]. *)
Module Part000.

Definition computeCorrelation (xVals yVals : list float) : float :=
  let n := length xVals in
  if (n <=? 1)%nat then 0
  else
    let meanX := sumArray xVals / ofNat n in
    let meanY := sumArray yVals / ofNat n in
    let acc := corrLoop xVals yVals meanX meanY n in
    if falsy (denomX acc) || falsy (denomY acc) then 0
    else numerator acc / PrimFloat.sqrt (denomX acc * denomY acc).

End Part000.

(** computeRegressionLine (App.jsx 51-73): the object [{ slope, intercept }]
    and the two accumulators of the [forEach] loop. *)
Record line : Type := mkLine { slope : float; intercept : float }.

Record regAcc : Type := mkRegAcc {
  regNumerator : float;
  regDenominator : float
}.

Definition regStep (meanX meanY : float) (acc : regAcc) (d : point)
    : regAcc :=
  {| regNumerator := regNumerator acc + (x d - meanX) * (y d - meanY);
     regDenominator := regDenominator acc + (x d - meanX) * (x d - meanX) |}.

Definition computeRegressionLine (data : list point) : line :=
  let n := length data in
  if (n =? 0)%nat then {| slope := 0; intercept := 0 |}
  else
    let meanX := fold_left (fun acc d => acc + x d) data 0 / ofNat n in
    let meanY := fold_left (fun acc d => acc + y d) data 0 / ofNat n in
    let acc := fold_left (regStep meanX meanY) data (mkRegAcc 0 0) in
    if isZero (regDenominator acc)
    then {| slope := 0; intercept := meanY |}
    else
      let slope' := regNumerator acc / regDenominator acc in
      let intercept' := meanY - slope' * meanX in
      {| slope := slope'; intercept := intercept' |}.

(** generateCorrelatedData (App.jsx 77-118). *)
Section Generator.

Variable rng : Type.
Variable randn : rng -> float * rng.

Record rawData : Type := mkRaw {
  xRaw : list float;
  yRaw : list float;
  rawGen : rng
}.

Fixpoint rawLoop (corr : float) (k : nat) (st : rawData) : rawData :=
  match k with
  | O => st
  | S k' =>
      let (z1, g1) := randn (rawGen st) in
      let (z2, g2) := randn g1 in
      let xVal := z1 in
      let yVal := corr * z1 + PrimFloat.sqrt (1 - corr * corr) * z2 in
      rawLoop corr k' (mkRaw (xRaw st ++ [xVal]) (yRaw st ++ [yVal]) g2)
  end.

Definition rangeOf (minRaw maxRaw : float) : float :=
  orElse (maxRaw - minRaw) 1.

Definition scale (xMin xMax minRaw rangeRaw raw : float) : float :=
  xMin + ((raw - minRaw) / rangeRaw) * (xMax - xMin).

Definition scaleStep (xs ys : list float) (xMin xMax : float)
    (minXraw rangeXraw minYraw rangeYraw : float)
    (data : list point) (i : nat) : list point :=
  let scaledX := scale xMin xMax minXraw rangeXraw (nth i xs nan) in
  let scaledY := scale xMin xMax minYraw rangeYraw (nth i ys nan) in
  data ++ [{| x := scaledX; y := scaledY |}].

Definition rescale (xs ys : list float) (k : nat) (xMin xMax : float)
    : list point :=
  let minXraw := Math_min xs in
  let maxXraw := Math_max xs in
  let rangeXraw := rangeOf minXraw maxXraw in
  let minYraw := Math_min ys in
  let maxYraw := Math_max ys in
  let rangeYraw := rangeOf minYraw maxYraw in
  fold_left
    (scaleStep xs ys xMin xMax minXraw rangeXraw minYraw rangeYraw)
    (seq 0 k) [].

Definition drawRaw (corr : float) (n : Z) (g : rng) : rawData :=
  rawLoop corr (Z.to_nat n) (mkRaw [] [] g).

Definition generateCorrelatedData (corr : float) (n : Z)
    (xMin xMax : float) (g : rng) : list point * rng :=
  let raw := drawRaw corr n g in
  (rescale (xRaw raw) (yRaw raw) (Z.to_nat n) xMin xMax, rawGen raw).

End Generator.

Arguments mkRaw {rng}.
Arguments xRaw {rng}.
Arguments yRaw {rng}.
Arguments rawGen {rng}.
Arguments rawLoop {rng}.
Arguments drawRaw {rng}.
Arguments generateCorrelatedData {rng}.

(** Two sources on the state [nat]: every draw 1, and the draws
    0, 1, 2, ... *)
Definition constantDraws (g : nat) : float * nat := (1, S g).

Definition countingDraws (g : nat) : float * nat := (ofNat g, S g).

(** The two-pass sums in the words of the specification: the mean first,
    then the centred squares and products added up in array order. *)
Definition mean (l : list float) : float := sumArray l / ofNat (length l).

Definition sqDev (l : list float) : float :=
  fold_left (fun acc a => acc + (a - mean l) * (a - mean l)) l 0.

Definition coDev (xs ys : list float) : float :=
  fold_left (fun acc p => acc + (fst p - mean xs) * (snd p - mean ys))
    (combine xs ys) 0.

(** Pearson's correlation from the two-pass sums. *)
Definition pearsonTwoPass (xs ys : list float) : float :=
  coDev xs ys / PrimFloat.sqrt (sqDev xs * sqDev ys).


(** An array with two different entries. *)
Definition nonConstant (l : list float) : bool :=
  existsb (fun a => existsb (fun b => negb (PrimFloat.eqb a b)) l) l.

(** What the specification promises of a sample of [n] points in
    [[lo, hi]], as a test on binary64 values. *)
Definition attains (f : point -> float) (v : float) (data : list point)
    : bool :=
  existsb (fun d => PrimFloat.eqb (f d) v) data.

Definition within (lo hi v : float) : bool :=
  PrimFloat.leb lo v && PrimFloat.leb v hi.

Definition fillsRange (n : Z) (lo hi : float) (data : list point) : bool :=
  (length data =? Z.to_nat n)%nat
  && forallb (fun d => within lo hi (x d) && within lo hi (y d)) data
  && attains x lo data && attains x hi data
  && attains y lo data && attains y hi data.

End F64.

(** ** Notions used to state the properties *)

(** The sum of a list of reals. *)
Definition Rsum (l : list R) : R := fold_right Rplus 0 l.

(** The arithmetic mean. *)
Definition mean (l : list R) : R := Rsum l / INR (length l).

(** Sum of squared deviations from the mean, and sum of centred products:
    the second pass of the two-pass formulas. *)
Definition sqDev (l : list R) : R :=
  Rsum (map (fun a => (a - mean l) * (a - mean l)) l).

Definition coDev (xs ys : list R) : R :=
  Rsum (map (fun p => (fst p - mean xs) * (snd p - mean ys)) (combine xs ys)).

(** An array with two different entries. *)
Definition nonConstant (l : list R) : Prop :=
  exists a b, In a l /\ In b l /\ a <> b.



(** The mean of the sample's y values, 0 for the empty sample: the [meanY]
    of the specification's [RegressionResult]. *)
Definition sampleMeanY (data : list point) : R :=
  match data with
  | [] => 0
  | _ => mean (map y data)
  end.

(** The bounds of the specification's [GenerationParameters]. *)
Definition corrInBounds (r : R) : Prop := corrMin <= r <= corrMax.

Definition sizeInBounds (n : Z) : Prop :=
  (sampleSizeMin <= n <= sampleSizeMax)%Z.

Definition paramsInBounds (h : hooks) : Prop :=
  corrInBounds (corr h) /\ sizeInBounds (sampleSize h).

Definition eventInBounds (e : event) : Prop :=
  match e with
  | CorrChange v => corrInBounds v
  | SampleSizeChange v => sizeInBounds v
  | FitClick => True
  end.

(** Events that change a generation parameter. *)
Definition isParamChange (e : event) : bool :=
  match e with
  | CorrChange _ | SampleSizeChange _ => true
  | FitClick => false
  end.

(** What the specification promises of a generated sample of [n] points in
    the range [[lo, hi]]. *)
Definition inRange (lo hi v : R) : Prop := lo <= v <= hi.

Definition attains (f : point -> R) (v : R) (data : list point) : Prop :=
  exists d, In d data /\ f d = v.

Definition fillsRange (n : Z) (lo hi : R) (data : list point) : Prop :=
  length data = Z.to_nat n
  /\ Forall (fun d => inRange lo hi (x d) /\ inRange lo hi (y d)) data
  /\ attains x lo data /\ attains x hi data
  /\ attains y lo data /\ attains y hi data.

(** Two deterministic generators on the state [nat], used to run the code on
    concrete draws: one always draws 1, the other draws 0, 1, 2, ... *)
Definition constantDraws (g : nat) : R * nat := (1, S g).

Definition countingDraws (g : nat) : R * nat := (INR g, S g).

(** * Properties *)

(** ** Tests on numbers *)

Lemma isZero_true (v : R) : isZero v = true <-> v = 0.
Proof.
  unfold isZero. destruct (Req_dec_T v 0); split; intros; auto; discriminate.
Qed.

Lemma isZero_false (v : R) : isZero v = false <-> v <> 0.
Proof.
  unfold isZero. destruct (Req_dec_T v 0); split; intros; auto;
    try discriminate; contradiction.
Qed.

Lemma orElse_zero (d : R) : orElse 0 d = d.
Proof.
  unfold orElse, falsy. replace (isZero 0) with true; auto.
  symmetry. apply isZero_true. reflexivity.
Qed.


(** Evaluates the zero tests of a goal whose numbers are literals. *)
Ltac eval_tests :=
  repeat match goal with
  | |- context [isZero ?v] =>
      first
        [ replace (isZero v) with true by (symmetry; apply isZero_true; lra)
        | replace (isZero v) with false by (symmetry; apply isZero_false; lra) ]
  end.

(** ** Sums and the loops that accumulate them *)

Lemma fold_left_plus {A : Type} (f : A -> R) (l : list A) (a : R) :
  fold_left (fun acc d => acc + f d) l a = a + Rsum (map f l).
Proof.
  revert a. induction l as [|d l IH]; intros a; simpl.
  - lra.
  - rewrite IH. lra.
Qed.

Lemma sumArray_Rsum (arr : list R) : sumArray arr = Rsum arr.
Proof.
  unfold sumArray.
  rewrite (fold_left_plus (fun b => b)), map_id. lra.
Qed.

Lemma Rsum_app (l1 l2 : list R) : Rsum (l1 ++ l2) = Rsum l1 + Rsum l2.
Proof.
  induction l1 as [|a l1 IH]; simpl; [lra | rewrite IH; lra].
Qed.

Lemma Rsum_scal (c : R) (l : list R) :
  Rsum (map (fun a => c * a) l) = c * Rsum l.
Proof.
  induction l as [|a l IH]; simpl; [lra | rewrite IH; lra].
Qed.

Lemma Rsum_nonneg (l : list R) : Forall (fun a => 0 <= a) l -> 0 <= Rsum l.
Proof.
  induction 1 as [|a l Ha _ IH]; simpl; lra.
Qed.

(** A sum of non-negative terms is zero only if every term is. *)
Lemma Rsum_zero_terms (l : list R) :
  Forall (fun a => 0 <= a) l -> Rsum l = 0 -> Forall (fun a => a = 0) l.
Proof.
  induction 1 as [|a l Ha Hl IH]; simpl; intros Hs.
  - constructor.
  - pose proof (Rsum_nonneg l Hl) as Hn.
    constructor; [lra | apply IH; lra].
Qed.

(** Reading an array by its indices visits its entries in order. *)
Lemma map_nth_seq {A B : Type} (f : A -> B) (l : list A) (dflt : A) :
  map (fun i => f (nth i l dflt)) (seq 0 (length l)) = map f l.
Proof.
  induction l as [|a l IH]; simpl; auto.
  f_equal. rewrite <- seq_shift, map_map. exact IH.
Qed.

Lemma map_nth_seq2 {A B C : Type} (f : A -> B -> C) (l1 : list A)
    (l2 : list B) (d1 : A) (d2 : B) :
  length l1 = length l2 ->
  map (fun i => f (nth i l1 d1) (nth i l2 d2)) (seq 0 (length l1))
  = map (fun p => f (fst p) (snd p)) (combine l1 l2).
Proof.
  revert l2. induction l1 as [|a l1 IH]; intros [|b l2] Hlen; simpl in *;
    try discriminate; auto.
  f_equal. rewrite <- seq_shift, map_map. apply IH. lia.
Qed.

(** The accumulators of [computeCorrelation]'s loop, as sums over indices. *)
Lemma corrLoop_fold (xVals yVals : list R) (mX mY : R) (l : list nat)
    (acc : corrAcc) :
  fold_left (corrStep xVals yVals mX mY) l acc =
  {| numerator := numerator acc
       + Rsum (map (fun i => (nth i xVals 0 - mX) * (nth i yVals 0 - mY)) l);
     denomX := denomX acc
       + Rsum (map (fun i => (nth i xVals 0 - mX) * (nth i xVals 0 - mX)) l);
     denomY := denomY acc
       + Rsum (map (fun i => (nth i yVals 0 - mY) * (nth i yVals 0 - mY)) l)
  |}.
Proof.
  revert acc. induction l as [|i l IH]; intros [nu dX dY]; simpl.
  - f_equal; lra.
  - rewrite IH. unfold corrStep. simpl. f_equal; lra.
Qed.

Lemma corrLoop_sums (xs ys : list R) :
  length xs = length ys ->
  corrLoop xs ys (mean xs) (mean ys) (length xs) =
  {| numerator := coDev xs ys; denomX := sqDev xs; denomY := sqDev ys |}.
Proof.
  intros Hlen. unfold corrLoop. rewrite corrLoop_fold. simpl.
  unfold coDev, sqDev. f_equal.
  - rewrite (map_nth_seq2 (fun a b => (a - mean xs) * (b - mean ys)))
      by exact Hlen. lra.
  - rewrite (map_nth_seq (fun a => (a - mean xs) * (a - mean xs))). lra.
  - rewrite Hlen.
    rewrite (map_nth_seq (fun b => (b - mean ys) * (b - mean ys))). lra.
Qed.


(** ** computeCorrelation *)

Lemma sqDev_terms_nonneg (l : list R) (m : R) :
  Forall (fun a => 0 <= a) (map (fun a => (a - m) * (a - m)) l).
Proof.
  apply Forall_forall. intros t Ht. apply in_map_iff in Ht.
  destruct Ht as [a [<- _]]. exact (Rle_0_sqr (a - m)).
Qed.

Lemma sqDev_nonneg (l : list R) : 0 <= sqDev l.
Proof. apply Rsum_nonneg, sqDev_terms_nonneg. Qed.

(** Zero squared deviation: every entry equals the mean. *)
Lemma sqDev_zero_all_mean (l : list R) :
  sqDev l = 0 -> forall a, In a l -> a = mean l.
Proof.
  intros Hs a Ha.
  pose proof (Rsum_zero_terms _ (sqDev_terms_nonneg l (mean l)) Hs) as Hall.
  rewrite Forall_forall in Hall.
  assert (Hz : (a - mean l) * (a - mean l) = 0).
  { apply (Hall ((a - mean l) * (a - mean l))).
    apply in_map_iff. exists a. auto. }
  nra.
Qed.

Lemma sqDev_pos_nonConstant (l : list R) : nonConstant l -> 0 < sqDev l.
Proof.
  intros [a [b [Ha [Hb Hab]]]].
  destruct (Rle_lt_or_eq_dec _ _ (sqDev_nonneg l)) as [Hpos | Hz]; auto.
  exfalso. apply Hab.
  rewrite (sqDev_zero_all_mean l (eq_sym Hz) a Ha).
  rewrite (sqDev_zero_all_mean l (eq_sym Hz) b Hb). reflexivity.
Qed.

Lemma coDev_diag (l : list R) : coDev l l = sqDev l.
Proof.
  unfold coDev, sqDev. generalize (mean l) as m. intros m.
  induction l as [|a l IH]; simpl; [reflexivity | rewrite IH; reflexivity].
Qed.

(** The function, with its loop replaced by the sums it accumulates. *)
Lemma computeCorrelation_sums (xs ys : list R) :
  length xs = length ys ->
  computeCorrelation xs ys =
  if (length xs <=? 1)%nat then 0
  else if isZero (sqDev xs) || isZero (sqDev ys) then 0
  else coDev xs ys / sqrt (sqDev xs * sqDev ys).
Proof.
  intros Hlen. unfold computeCorrelation.
  destruct (length xs <=? 1)%nat; auto.
  rewrite !sumArray_Rsum.
  replace (Rsum ys / INR (length xs)) with (mean ys)
    by (unfold mean; rewrite Hlen; reflexivity).
  fold (mean xs). rewrite corrLoop_sums by exact Hlen. reflexivity.
Qed.

(** On numbers [!v] and [v === 0] agree, so part_000 computes the same. *)
Lemma Part000_computeCorrelation_same (xs ys : list R) :
  Part000.computeCorrelation xs ys = computeCorrelation xs ys.
Proof. reflexivity. Qed.

(** In exact arithmetic the correlation of a non-constant array of at least
    two entries with itself is exactly 1. *)
Lemma computeCorrelation_self_exact (xs : list R) :
  (2 <= length xs)%nat -> nonConstant xs -> computeCorrelation xs xs = 1.
Proof.
  intros Hlen Hnc.
  rewrite computeCorrelation_sums by reflexivity.
  destruct (Nat.leb_spec (length xs) 1) as [Hle | _]; [lia |].
  pose proof (sqDev_pos_nonConstant xs Hnc) as Hpos.
  assert (Hz : isZero (sqDev xs) = false) by (apply isZero_false; lra).
  rewrite Hz. simpl. rewrite coDev_diag, sqrt_square by lra.
  field. lra.
Qed.

(** ** computeRegressionLine *)

Lemma sum_field_mean (f : point -> R) (data : list point) :
  fold_left (fun acc d => acc + f d) data 0 / INR (length data)
  = mean (map f data).
Proof.
  unfold mean. rewrite fold_left_plus, length_map. f_equal. lra.
Qed.


(** App_old.jsx computes the slope and intercept of App.jsx and adds the
    mean of the y values as [meanY]. *)
Lemma AppOld_computeRegressionLine_App (data : list point) :
  AppOld.computeRegressionLine data =
  {| slope := slope (App.computeRegressionLine data);
     intercept := intercept (App.computeRegressionLine data);
     meanY := Some (sampleMeanY data) |}.
Proof.
  unfold AppOld.computeRegressionLine, App.computeRegressionLine.
  destruct data as [|d data]; [reflexivity |].
  cbv zeta. replace (length (d :: data) =? 0)%nat with false by reflexivity.
  unfold sampleMeanY. rewrite !sum_field_mean.
  destruct (isZero _); reflexivity.
Qed.

Lemma App_meanY_sample (data : list point) :
  App.meanY data = sampleMeanY data.
Proof.
  unfold App.meanY, sampleMeanY. destruct data as [|d data]; [reflexivity |].
  replace (length (d :: data) =? 0)%nat with false by reflexivity.
  apply sum_field_mean.
Qed.

(** C1.  On the empty sample every variant returns slope 0 and intercept 0.
    App_old.jsx and part_000 return the record [{slope: 0, intercept: 0,
    meanY: 0}] and their result carries [meanY] on every sample; the result
    of App.jsx never has a [meanY] property, and the component's separate
    [meanY] is 0 on the empty sample. *)
Theorem computeRegressionLine_empty :
  AppOld.computeRegressionLine []
    = {| slope := 0; intercept := 0; meanY := Some 0 |}
  /\ Part000.computeRegressionLine []
    = {| slope := 0; intercept := 0; meanY := Some 0 |}
  /\ (forall data,
        meanY (AppOld.computeRegressionLine data) = Some (sampleMeanY data))
  /\ App.computeRegressionLine []
    = {| slope := 0; intercept := 0; meanY := None |}
  /\ (forall data, meanY (App.computeRegressionLine data) = None)
  /\ App.meanY [] = 0.
Proof.
  repeat split; try reflexivity.
  - intros data. rewrite AppOld_computeRegressionLine_App. reflexivity.
  - intros data. unfold App.computeRegressionLine.
    destruct (length data =? 0)%nat; [reflexivity |].
    cbv zeta. destruct (isZero _); reflexivity.
Qed.

(** C1 as stated fails for App.jsx: its result on the empty sample is not the
    record with [meanY: 0]. *)
Lemma computeRegressionLine_empty_App_no_meanY :
  App.computeRegressionLine []
    <> {| slope := 0; intercept := 0; meanY := Some 0 |}.
Proof.
  unfold App.computeRegressionLine. simpl. intros H.
  apply (f_equal meanY) in H. simpl in H. discriminate.
Qed.






(** ** The displayed line *)

(** The derivation the specification gives for the displayed line. *)
Lemma displayMode_fitLine (h : hooks) :
  displayMode h = if fitLine h then Fitted else Baseline.
Proof. reflexivity. Qed.

(** C2.  In every state the displayed slope is the regression slope when the
    mode is Fitted and 0 otherwise.  The displayed intercept is the
    regression intercept when Fitted; in Baseline it is the mean of the
    sample's y values in App.jsx, App_old.jsx and part_000, and 0 in
    part_001. *)
Theorem displayed_line_derived (h : hooks) (data : list point) :
  let r := App.computeRegressionLine data in
  let byMode (fitted baseline : R) :=
    match displayMode h with Fitted => fitted | Baseline => baseline end in
  App.displayedSlope h data = byMode (slope r) 0
  /\ App.displayedIntercept h data = byMode (intercept r) (sampleMeanY data)
  /\ AppOld.displayedSlope h data = byMode (slope r) 0
  /\ AppOld.displayedIntercept h data
     = Some (byMode (intercept r) (sampleMeanY data))
  /\ Part000.displayedSlope h data = byMode (slope r) 0
  /\ Part000.displayedIntercept h data
     = Some (byMode (intercept r) (sampleMeanY data))
  /\ Part001.displayedSlope h data = byMode (slope r) 0
  /\ Part001.displayedIntercept h data = byMode (intercept r) 0.
Proof.
  cbv zeta.
  unfold App.displayedSlope, App.displayedIntercept, AppOld.displayedSlope,
    AppOld.displayedIntercept, Part000.displayedSlope,
    Part000.displayedIntercept, Part001.displayedSlope,
    Part001.displayedIntercept, Part000.computeRegressionLine,
    Part001.computeRegressionLine, displayMode.
  rewrite AppOld_computeRegressionLine_App, App_meanY_sample.
  destruct (fitLine h); repeat split; reflexivity.
Qed.

(** C2 as stated fails for part_001: in Baseline on the one-point sample
    [(0, 1)] the displayed intercept is 0 while the sample's mean y is 1. *)
Lemma displayed_intercept_Part001_not_meanY :
  displayMode Part001.initial = Baseline
  /\ sampleMeanY [ {| x := 0; y := 1 |} ] = 1
  /\ Part001.displayedIntercept Part001.initial [ {| x := 0; y := 1 |} ]
     <> sampleMeanY [ {| x := 0; y := 1 |} ].
Proof.
  assert (Hm : sampleMeanY [ {| x := 0; y := 1 |} ] = 1).
  { unfold sampleMeanY, mean. simpl. field. }
  repeat split; auto.
  rewrite Hm. unfold Part001.displayedIntercept. simpl. lra.
Qed.

(** ** Residual lines *)

(** C10.  The residual lines are one per sample point, in sample order; the
    line of a point [(x, y)] runs from [(x, y)] to [(x, slope * x +
    intercept)] with the slope and intercept of [computeRegressionLine] on
    the sample.  [residualLines] reads the sample only: neither the display
    mode nor the displayed line enters it.  The same holds in part_001. *)
Theorem residualLines_fitted (data : list point) :
  let r := App.computeRegressionLine data in
  let segment (d : point) :=
    [ {| x := x d; y := y d |};
      {| x := x d; y := slope r * x d + intercept r |} ] in
  length (App.residualLines data) = length data
  /\ (forall i d, nth_error data i = Some d ->
        nth_error (App.residualLines data) i = Some (segment d))
  /\ Part001.residualLines data = App.residualLines data.
Proof.
  cbv zeta. unfold App.residualLines. repeat split.
  - apply length_map.
  - intros i d Hd. rewrite nth_error_map, Hd. reflexivity.
Qed.

(** The chart receives the residual lines exactly in the Fitted mode. *)
Lemma drawnResiduals_by_mode (h : hooks) (data : list point) :
  showDistances h = fitLine h ->
  App.drawnResiduals h data =
  match displayMode h with
  | Fitted => App.residualLines data
  | Baseline => []
  end.
Proof.
  unfold App.drawnResiduals, displayMode. intros ->.
  destruct (fitLine h); reflexivity.
Qed.

(** ** The interaction state machine *)

Lemma Handlers000_handle_same (e : event) (h : hooks) :
  Handlers000.handle e h = Handlers.handle e h.
Proof. destruct e; reflexivity. Qed.

(** [showDistances] follows [fitLine] after every event. *)
Lemma handle_showDistances (e : event) (h : hooks) :
  showDistances (Handlers.handle e h) = fitLine (Handlers.handle e h).
Proof. destruct e; reflexivity. Qed.

Lemma run_app (es1 es2 : list event) (h : hooks) :
  Handlers.run (es1 ++ es2) h = Handlers.run es2 (Handlers.run es1 h).
Proof. apply fold_left_app. Qed.

Lemma handle_in_bounds (e : event) (h : hooks) :
  paramsInBounds h -> eventInBounds e ->
  paramsInBounds (Handlers.handle e h).
Proof.
  unfold paramsInBounds. intros [Hc Hn] He.
  destruct e; simpl in *; auto.
Qed.

(** C3.  The handlers store the value they are given without clamping or
    validating it: the correlation handler stores [r], the sample-size
    handler stores [n].  The stored parameters therefore stay within
    [[-1, 1]] and [[10, 200]] along every sequence of events whose values
    are within these bounds. *)
Theorem handlers_store_value_unchanged (h : hooks) :
  (forall r, corr (Handlers.handle (CorrChange r) h) = r)
  /\ (forall n, sampleSize (Handlers.handle (SampleSizeChange n) h) = n)
  /\ (forall es, paramsInBounds h -> Forall eventInBounds es ->
        paramsInBounds (Handlers.run es h)).
Proof.
  split; [intros r; reflexivity |].
  split; [intros n; reflexivity |].
  intros es. revert h. induction es as [|e es IH]; intros h Hb Hes; simpl.
  - exact Hb.
  - inversion Hes as [|e' es' He Hes']; subst.
    apply IH; [apply handle_in_bounds; assumption | assumption].
Qed.

(** C3 as stated fails: the correlation 2 and the sample size 500 are stored
    as they come. *)
Lemma handlers_do_not_clamp :
  ~ corrInBounds (corr (Handlers.handle (CorrChange 2) App.initial))
  /\ ~ sizeInBounds
         (sampleSize (Handlers.handle (SampleSizeChange 500) App.initial)).
Proof.
  unfold corrInBounds, sizeInBounds, corrMin, corrMax, sampleSizeMin,
    sampleSizeMax. simpl. split; intros [H1 H2]; [lra | lia].
Qed.

(** C9.  From every state: a correlation or sample-size event leaves the
    mode Baseline; an event that turns Baseline into Fitted is the fit
    click; the fit click makes the mode Fitted and keeps both parameters; and
    a Fitted mode is kept by every event that is not a parameter change, so
    by any sequence of such events. *)
Theorem display_mode_policy (h : hooks) :
  (forall e, isParamChange e = true ->
     displayMode (Handlers.handle e h) = Baseline)
  /\ (forall e, displayMode h = Baseline ->
        displayMode (Handlers.handle e h) = Fitted -> e = FitClick)
  /\ displayMode (Handlers.handle FitClick h) = Fitted
  /\ corr (Handlers.handle FitClick h) = corr h
  /\ sampleSize (Handlers.handle FitClick h) = sampleSize h
  /\ (forall es, displayMode h = Fitted ->
        Forall (fun e => isParamChange e = false) es ->
        displayMode (Handlers.run es h) = Fitted).
Proof.
  repeat split.
  - intros [r | n |]; simpl; intros; try reflexivity; discriminate.
  - intros [r | n |]; simpl; intros; try reflexivity; discriminate.
  - intros es. revert h. induction es as [|e es IH]; intros h Hf Hall; simpl.
    + exact Hf.
    + inversion Hall as [|e' es' He Hes]; subst. apply IH; auto.
      destruct e; simpl in *; try discriminate. reflexivity.
Qed.

(** ** generateCorrelatedData *)

(** *** Minimum and maximum of an array *)

Lemma fold_Rmin_spec (l : list R) (a : R) :
  let m := fold_left Rmin l a in
  m <= a /\ (forall b, In b l -> m <= b) /\ (m = a \/ In m l).
Proof.
  revert a. induction l as [|c l IH]; intros a; simpl.
  - split; [lra | split; [intros b [] | auto]].
  - destruct (IH (Rmin a c)) as [H1 [H2 H3]].
    pose proof (Rmin_l a c). pose proof (Rmin_r a c).
    split; [lra |]. split.
    + intros b [<- | Hb]; [lra | auto].
    + destruct H3 as [H3 | H3]; auto.
      rewrite H3. unfold Rmin. destruct (Rle_dec a c); auto.
Qed.

Lemma fold_Rmax_spec (l : list R) (a : R) :
  let m := fold_left Rmax l a in
  a <= m /\ (forall b, In b l -> b <= m) /\ (m = a \/ In m l).
Proof.
  revert a. induction l as [|c l IH]; intros a; simpl.
  - split; [lra | split; [intros b [] | auto]].
  - destruct (IH (Rmax a c)) as [H1 [H2 H3]].
    pose proof (Rmax_l a c). pose proof (Rmax_r a c).
    split; [lra |]. split.
    + intros b [<- | Hb]; [lra | auto].
    + destruct H3 as [H3 | H3]; auto.
      rewrite H3. unfold Rmax. destruct (Rle_dec a c); auto.
Qed.

Lemma Math_min_le (l : list R) (a : R) : In a l -> Math_min l <= a.
Proof.
  destruct l as [|c l]; simpl; [intros [] |].
  destruct (fold_Rmin_spec l c) as [H1 [H2 _]].
  intros [<- | Ha]; auto.
Qed.


Lemma Math_max_ge (l : list R) (a : R) : In a l -> a <= Math_max l.
Proof.
  destruct l as [|c l]; simpl; [intros [] |].
  destruct (fold_Rmax_spec l c) as [H1 [H2 _]].
  intros [<- | Ha]; auto.
Qed.


(** *** The divisor and the rescaling of one value *)

(** The divisor is never zero. *)
Lemma rangeOf_nonzero (minRaw maxRaw : R) : rangeOf minRaw maxRaw <> 0.
Proof.
  unfold rangeOf, orElse, falsy.
  destruct (isZero (maxRaw - minRaw)) eqn:E; [lra |].
  apply isZero_false. exact E.
Qed.


Lemma rangeOf_same (v : R) : rangeOf v v = 1.
Proof.
  unfold rangeOf. replace (v - v) with 0 by lra. apply orElse_zero.
Qed.

Lemma scale_min (xMin xMax minRaw rangeRaw : R) :
  scale xMin xMax minRaw rangeRaw minRaw = xMin.
Proof.
  unfold scale. replace (minRaw - minRaw) with 0 by lra.
  unfold Rdiv. rewrite Rmult_0_l. lra.
Qed.



(** *** The two loops *)

Section GeneratorFacts.

Variable rng : Type.
Variable randn : rng -> R * rng.

Lemma rawLoop_length (c : R) (k : nat) (st : rawData rng) :
  length (xRaw (rawLoop randn c k st)) = (length (xRaw st) + k)%nat
  /\ length (yRaw (rawLoop randn c k st)) = (length (yRaw st) + k)%nat.
Proof.
  revert st. induction k as [|k IH]; intros st; simpl.
  - split; lia.
  - destruct (randn (rawGen st)) as [z1 g1].
    destruct (randn g1) as [z2 g2].
    destruct (IH (mkRaw (xRaw st ++ [z1])
                    (yRaw st ++ [c * z1 + sqrt (1 - c * c) * z2]) g2))
      as [Hx Hy].
    rewrite Hx, Hy. simpl. rewrite !length_app. simpl. split; lia.
Qed.

Lemma drawRaw_length (c : R) (n : Z) (g : rng) :
  length (xRaw (drawRaw randn c n g)) = Z.to_nat n
  /\ length (yRaw (drawRaw randn c n g)) = Z.to_nat n.
Proof.
  unfold drawRaw, iterations.
  destruct (rawLoop_length c (Z.to_nat n) (mkRaw [] [] g)) as [Hx Hy].
  simpl in Hx, Hy. auto.
Qed.

(** A loop of [push] builds the list of the pushed values. *)
Lemma push_loop {A : Type} (f : nat -> A) (l : list nat) (acc : list A) :
  fold_left (fun data i => data ++ [f i]) l acc = acc ++ map f l.
Proof.
  revert acc. induction l as [|i l IH]; intros acc; simpl.
  - rewrite app_nil_r. reflexivity.
  - rewrite IH, <- app_assoc. reflexivity.
Qed.

(** The second loop pairs the rescaled entries of the two raw arrays. *)
Lemma rescale_combine (xs ys : list R) (xMin xMax : R) :
  length xs = length ys ->
  rescale xs ys (length xs) xMin xMax =
  map (fun p =>
         {| x := scale xMin xMax (Math_min xs)
                   (rangeOf (Math_min xs) (Math_max xs)) (fst p);
            y := scale xMin xMax (Math_min ys)
                   (rangeOf (Math_min ys) (Math_max ys)) (snd p) |})
      (combine xs ys).
Proof.
  intros Hlen. unfold rescale. cbv zeta. unfold scaleStep.
  rewrite (push_loop
    (fun i => {| x := scale xMin xMax (Math_min xs)
                        (rangeOf (Math_min xs) (Math_max xs)) (nth i xs 0);
                 y := scale xMin xMax (Math_min ys)
                        (rangeOf (Math_min ys) (Math_max ys)) (nth i ys 0) |})).
  simpl.
  apply (map_nth_seq2
    (fun a b => {| x := scale xMin xMax (Math_min xs)
                          (rangeOf (Math_min xs) (Math_max xs)) a;
                   y := scale xMin xMax (Math_min ys)
                          (rangeOf (Math_min ys) (Math_max ys)) b |})).
  exact Hlen.
Qed.




(** A dimension whose raw minimum and maximum coincide is mapped to
    [xMin]. *)
Lemma generateCorrelatedData_flat_x (c : R) (n : Z) (xMin xMax : R)
    (g : rng) :
  let raw := drawRaw randn c n g in
  Math_min (xRaw raw) = Math_max (xRaw raw) ->
  Forall (fun d => x d = xMin)
    (fst (generateCorrelatedData randn c n xMin xMax g)).
Proof.
  cbv zeta. unfold generateCorrelatedData. simpl.
  destruct (drawRaw_length c n g) as [Hx Hy].
  set (raw := drawRaw randn c n g) in *.
  unfold iterations. rewrite <- Hx.
  assert (Hlen : length (xRaw raw) = length (yRaw raw)) by congruence.
  rewrite rescale_combine by exact Hlen.
  intros Hflat. apply Forall_forall. intros d Hd.
  apply in_map_iff in Hd. destruct Hd as [[a b] [<- Hab]]. simpl.
  pose proof (in_combine_l _ _ _ _ Hab) as Ha.
  pose proof (Math_min_le _ _ Ha). pose proof (Math_max_ge _ _ Ha).
  replace a with (Math_min (xRaw raw)) by lra. apply scale_min.
Qed.



(** C5.  [generateCorrelatedData(0, 1, 0, 10)]: both raw ranges are zero,
    both divisors are 1, and the sample is the single point [(0, 0)], both
    coordinates at the lower end of the range. *)
Theorem generateCorrelatedData_single_point (g : rng) :
  let raw := drawRaw randn 0 1 g in
  Math_max (xRaw raw) - Math_min (xRaw raw) = 0
  /\ Math_max (yRaw raw) - Math_min (yRaw raw) = 0
  /\ rangeOf (Math_min (xRaw raw)) (Math_max (xRaw raw)) = 1
  /\ rangeOf (Math_min (yRaw raw)) (Math_max (yRaw raw)) = 1
  /\ fst (generateCorrelatedData randn 0 1 0 10 g) = [ {| x := 0; y := 0 |} ].
Proof.
  cbv zeta. unfold generateCorrelatedData, drawRaw, iterations.
  change (Z.to_nat 1) with 1%nat. simpl.
  destruct (randn g) as [z1 g1]. destruct (randn g1) as [z2 g2]. simpl.
  unfold rescale. simpl. unfold scaleStep. simpl.
  rewrite !rangeOf_same, !scale_min.
  repeat split; lra.
Qed.

End GeneratorFacts.

(** ** The properties on concrete inputs *)

(** Evaluates [Rmin] and [Rmax] of literals. *)
Ltac eval_minmax :=
  unfold Rmin, Rmax;
  repeat match goal with
  | |- context [Rle_dec ?a ?b] => destruct (Rle_dec a b); try lra
  end.

(** In exact arithmetic too the upper end is missed when every draw is the
    same: with all draws equal to 1 the two points of
    [generateCorrelatedData(0, 2, 0, 10)] have x = 0, so no point attains
    10. *)
Lemma generateCorrelatedData_flat_draws_miss_max :
  (2 <= 2)%Z /\ -1 <= 0 <= 1
  /\ ~ fillsRange 2 0 10
         (fst (generateCorrelatedData constantDraws 0 2 0 10 0%nat)).
Proof.
  split; [lia |]. split; [lra |].
  intros [_ [_ [_ [[d [Hin Hd]] _]]]].
  pose proof (generateCorrelatedData_flat_x nat constantDraws 0 2 0 10 0%nat)
    as Hflat.
  cbv zeta in Hflat. rewrite Forall_forall in Hflat.
  rewrite (Hflat ltac:(simpl; eval_minmax) d Hin) in Hd. lra.
Qed.

(** The arrays [[0, 1]] and [[1, 0]] run against each other. *)
Example computeCorrelation_opposite : computeCorrelation [0; 1] [1; 0] = -1.
Proof.
  unfold computeCorrelation, corrLoop, corrStep, sumArray. simpl.
  eval_tests. simpl.
  match goal with
  | |- context [sqrt ?e] => replace e with ((1 / 2) * (1 / 2)) by lra
  end.
  rewrite sqrt_square by lra. lra.
Qed.

(** A constant y dimension: the degenerate branch. *)
Example computeCorrelation_constant_y : computeCorrelation [0; 1] [5; 5] = 0.
Proof.
  unfold computeCorrelation, corrLoop, corrStep, sumArray. simpl.
  eval_tests. reflexivity.
Qed.

(** Three points on [y = 2 x + 3], evaluated step by step. *)
Example computeRegressionLine_three_points :
  App.computeRegressionLine
    [ {| x := 0; y := 3 |}; {| x := 1; y := 5 |}; {| x := 2; y := 7 |} ]
  = {| slope := 2; intercept := 3; meanY := None |}.
Proof.
  unfold App.computeRegressionLine, regLoop, regStep. simpl.
  eval_tests. f_equal; lra.
Qed.

(** All x equal: the horizontal line through the mean of y. *)
Example computeRegressionLine_vertical_sample :
  AppOld.computeRegressionLine [ {| x := 1; y := 0 |}; {| x := 1; y := 4 |} ]
  = {| slope := 0; intercept := 2; meanY := Some 2 |}.
Proof.
  unfold AppOld.computeRegressionLine, regLoop, regStep. simpl.
  eval_tests. f_equal; [| f_equal]; lra.
Qed.

Lemma nonConstant_0_1 : nonConstant [0; 1].
Proof. exists 0, 1. simpl. repeat split; auto; lra. Qed.


(** C10 on the sample [(0, 0)], [(1, 1)]: the line of the second point. *)
Lemma residualLines_fitted_witness :
  let data := [ {| x := 0; y := 0 |}; {| x := 1; y := 1 |} ] in
  nth_error (App.residualLines data) 1
  = Some [ {| x := 1; y := 1 |};
           {| x := 1;
              y := slope (App.computeRegressionLine data) * 1
                   + intercept (App.computeRegressionLine data) |} ].
Proof.
  cbv zeta.
  exact (proj1 (proj2 (residualLines_fitted
                         [ {| x := 0; y := 0 |}; {| x := 1; y := 1 |} ]))
           1%nat {| x := 1; y := 1 |} eq_refl).
Defined.

(** C3 along a session whose values are within the slider bounds. *)
Lemma handlers_store_value_unchanged_witness :
  paramsInBounds
    (Handlers.run [CorrChange (1 / 2); SampleSizeChange 50; FitClick]
       App.initial).
Proof.
  apply (proj2 (proj2 (handlers_store_value_unchanged App.initial))).
  - unfold paramsInBounds, corrInBounds, sizeInBounds, corrMin, corrMax,
      sampleSizeMin, sampleSizeMax. simpl. split; [lra | lia].
  - unfold eventInBounds, corrInBounds, sizeInBounds, corrMin, corrMax,
      sampleSizeMin, sampleSizeMax.
    repeat constructor; try lra; try lia.
Defined.

(** C9 on the scenario of the specification: after [setCorrelation(0.9)],
    [setSampleSize(50)] and [fit()] the mode is Fitted, it stays Fitted
    under further fit clicks, and [setSampleSize(60)] resets it. *)
Lemma display_mode_policy_witness :
  let h := Handlers.run [CorrChange (9 / 10); SampleSizeChange 50; FitClick]
             App.initial in
  displayMode h = Fitted
  /\ displayMode (Handlers.run [FitClick; FitClick] h) = Fitted
  /\ displayMode (Handlers.handle (SampleSizeChange 60) h) = Baseline.
Proof.
  cbv zeta. split; [reflexivity |]. split.
  - apply (proj2 (proj2 (proj2 (proj2 (proj2 (display_mode_policy _)))))).
    + reflexivity.
    + repeat constructor.
  - apply (proj1 (display_mode_policy _)). reflexivity.
Defined.

(** * The numerical core in binary64 *)

(** ** Loops over indices and loops over entries *)

Lemma fold_left_through_map {A B C : Type} (f : C -> B -> C) (h : A -> B)
    (l : list A) (a : C) :
  fold_left f (map h l) a = fold_left (fun acc v => f acc (h v)) l a.
Proof. revert a. induction l as [|v l IH]; intros a; simpl; auto. Qed.

(** A loop that reads two arrays of equal length by index visits their
    entries pairwise, in order. *)
Lemma fold_nth_seq2 {A C : Type} (f : C -> A -> A -> C) (l1 l2 : list A)
    (dflt : A) (a : C) :
  length l1 = length l2 ->
  fold_left (fun acc i => f acc (nth i l1 dflt) (nth i l2 dflt))
    (seq 0 (length l1)) a
  = fold_left (fun acc p => f acc (fst p) (snd p)) (combine l1 l2) a.
Proof.
  intros Hlen.
  rewrite <- (fold_left_through_map (fun acc p => f acc (fst p) (snd p))
                (fun i => (nth i l1 dflt, nth i l2 dflt))).
  rewrite (map_nth_seq2 pair l1 l2 dflt dflt Hlen).
  rewrite fold_left_through_map. reflexivity.
Qed.

Lemma fold_combine_fst {A C : Type} (f : C -> A -> C) (l1 l2 : list A)
    (a : C) :
  length l1 = length l2 ->
  fold_left (fun acc p => f acc (fst p)) (combine l1 l2) a = fold_left f l1 a.
Proof.
  revert l2 a. induction l1 as [|v l1 IH]; intros [|w l2] a Hlen;
    simpl in *; try discriminate; auto.
Qed.

Lemma fold_combine_snd {A C : Type} (f : C -> A -> C) (l1 l2 : list A)
    (a : C) :
  length l1 = length l2 ->
  fold_left (fun acc p => f acc (snd p)) (combine l1 l2) a = fold_left f l2 a.
Proof.
  revert l2 a. induction l1 as [|v l1 IH]; intros [|w l2] a Hlen;
    simpl in *; try discriminate; auto.
Qed.

Lemma fold_combine_diag {A C : Type} (f : C -> A -> A -> C) (l : list A)
    (a : C) :
  fold_left (fun acc p => f acc (fst p) (snd p)) (combine l l) a
  = fold_left (fun acc v => f acc v v) l a.
Proof. revert a. induction l as [|v l IH]; intros a; simpl; auto. Qed.

(** ** computeCorrelation *)

(** The three accumulators of the loop, each as its own running sum. *)
Lemma F64_corrLoop_fold (xs ys : list float) (mX mY : float) (l : list nat)
    (acc : F64.corrAcc) :
  fold_left (F64.corrStep xs ys mX mY) l acc =
  {| F64.numerator :=
       fold_left (fun a i => (a + (nth i xs nan - mX) * (nth i ys nan - mY))
                             %float) l (F64.numerator acc);
     F64.denomX :=
       fold_left (fun a i => (a + (nth i xs nan - mX) * (nth i xs nan - mX))
                             %float) l (F64.denomX acc);
     F64.denomY :=
       fold_left (fun a i => (a + (nth i ys nan - mY) * (nth i ys nan - mY))
                             %float) l (F64.denomY acc) |}.
Proof.
  revert acc. induction l as [|i l IH]; intros acc; simpl.
  - destruct acc; reflexivity.
  - rewrite IH. reflexivity.
Qed.

(** On arrays of equal length the accumulators end as the two-pass sums. *)
Lemma F64_corrLoop_sums (xs ys : list float) :
  length xs = length ys ->
  let acc := F64.corrLoop xs ys (F64.mean xs) (F64.mean ys) (length xs) in
  F64.numerator acc = F64.coDev xs ys
  /\ F64.denomX acc = F64.sqDev xs
  /\ F64.denomY acc = F64.sqDev ys.
Proof.
  intros Hlen. cbv zeta. unfold F64.corrLoop.
  rewrite F64_corrLoop_fold. cbn [F64.numerator F64.denomX F64.denomY].
  split; [| split].
  - apply (fold_nth_seq2
             (fun a u v => (a + (u - F64.mean xs) * (v - F64.mean ys))%float)
             xs ys nan 0%float Hlen).
  - rewrite (fold_nth_seq2
               (fun a u _ => (a + (u - F64.mean xs) * (u - F64.mean xs))%float)
               xs ys nan 0%float Hlen).
    apply (fold_combine_fst
             (fun a u => (a + (u - F64.mean xs) * (u - F64.mean xs))%float)
             xs ys 0%float Hlen).
  - rewrite (fold_nth_seq2
               (fun a _ v => (a + (v - F64.mean ys) * (v - F64.mean ys))%float)
               xs ys nan 0%float Hlen).
    apply (fold_combine_snd
             (fun a v => (a + (v - F64.mean ys) * (v - F64.mean ys))%float)
             xs ys 0%float Hlen).
Qed.

(** [computeCorrelation] and the variant of part_000 in terms of the
    two-pass sums. *)
Lemma F64_computeCorrelation_sums (xs ys : list float) :
  length xs = length ys ->
  F64.computeCorrelation xs ys =
  if (length xs <=? 1)%nat then 0%float
  else if F64.isZero (F64.sqDev xs) || F64.isZero (F64.sqDev ys) then 0%float
  else F64.pearsonTwoPass xs ys.
Proof.
  intros Hlen. unfold F64.computeCorrelation. cbv zeta.
  destruct (length xs <=? 1)%nat; [reflexivity |].
  change (F64.sumArray xs / F64.ofNat (length xs))%float with (F64.mean xs).
  replace (F64.sumArray ys / F64.ofNat (length xs))%float with (F64.mean ys)
    by (unfold F64.mean; rewrite Hlen; reflexivity).
  destruct (F64_corrLoop_sums xs ys Hlen) as [Hn [Hx Hy]].
  cbv zeta in Hn, Hx, Hy. rewrite Hn, Hx, Hy. reflexivity.
Qed.




(** C7.  The correlation of an array with itself is 0 when the array has at
    most one entry or its computed sum [d] of squared deviations is zero,
    and [d / sqrt (d * d)] otherwise; in exact arithmetic that quotient is
    exactly 1 for every non-constant array of at least two entries. *)
Theorem computeCorrelation_self :
  (forall xs : list float,
     F64.computeCorrelation xs xs =
     if (length xs <=? 1)%nat then 0%float
     else if F64.isZero (F64.sqDev xs) then 0%float
     else (F64.sqDev xs / PrimFloat.sqrt (F64.sqDev xs * F64.sqDev xs))%float)
  /\ (forall xs : list R,
        (2 <= length xs)%nat -> nonConstant xs ->
        computeCorrelation xs xs = 1).
Proof.
  split.
  - intros xs. rewrite (F64_computeCorrelation_sums xs xs eq_refl).
    rewrite orb_diag. unfold F64.pearsonTwoPass.
    replace (F64.coDev xs xs) with (F64.sqDev xs); [reflexivity |].
    unfold F64.coDev, F64.sqDev. symmetry.
    apply (fold_combine_diag
             (fun a u v => (a + (u - F64.mean xs) * (v - F64.mean xs))%float)).
  - exact computeCorrelation_self_exact.
Qed.

(** C7 as stated fails in binary64.  The array [[0, 2^-600]] is not
    constant, but the squares of its deviations from the mean underflow to
    0, the degenerate branch is taken and the result is 0.  On
    [[0, 2^-330]] the product of the two sums underflows and the result is
    [Infinity]; on [[0, 2^700]] the sums overflow and the result is NaN. *)
Lemma computeCorrelation_self_not_one :
  F64.nonConstant [0; 0x1p-600]%float = true
  /\ F64.computeCorrelation [0; 0x1p-600]%float [0; 0x1p-600]%float = 0%float
  /\ PrimFloat.eqb
       (F64.computeCorrelation [0; 0x1p-600]%float [0; 0x1p-600]%float) 1
     = false
  /\ F64.computeCorrelation [0; 0x1p-330]%float [0; 0x1p-330]%float
     = infinity
  /\ is_nan (F64.computeCorrelation [0; 0x1p700]%float [0; 0x1p700]%float)
     = true.
Proof. repeat split; vm_compute; reflexivity. Qed.


(** Without the test the quotient of a constant array is [0 / 0], NaN. *)
Example pearsonTwoPass_constant_nan :
  is_nan (F64.pearsonTwoPass [1; 1]%float [0; 1]%float) = true.
Proof. vm_compute. reflexivity. Qed.

(** The computed sum of a constant array need not be zero: the mean of
    three entries 0.1 is rounded away from 0.1, the sum of squared
    deviations is positive, and the quotient is returned. *)
Example computeCorrelation_constant_tenths :
  F64.isZero
    (F64.sqDev [0x1.999999999999ap-4; 0x1.999999999999ap-4;
                0x1.999999999999ap-4]%float) = false
  /\ F64.computeCorrelation
       [0x1.999999999999ap-4; 0x1.999999999999ap-4;
        0x1.999999999999ap-4]%float
       [0x1.999999999999ap-4; 0x1.999999999999ap-4;
        0x1.999999999999ap-4]%float = 1%float.
Proof. split; vm_compute; reflexivity. Qed.

(** C7 on [[0, 1]]. *)
Lemma computeCorrelation_self_witness :
  (2 <= length [0; 1])%nat /\ nonConstant [0; 1]
  /\ computeCorrelation [0; 1] [0; 1] = 1.
Proof.
  split; [simpl; lia |]. split; [exact nonConstant_0_1 |].
  apply (proj2 computeCorrelation_self);
    [simpl; lia | exact nonConstant_0_1].
Defined.

(** ** generateCorrelatedData *)

Section F64GeneratorFacts.

Variable rng : Type.
Variable randn : rng -> float * rng.





End F64GeneratorFacts.




(** ** computeRegressionLine *)

Lemma fold_combine_map {A B C : Type} (f : C -> B -> B -> C) (h k : A -> B)
    (l : list A) (a : C) :
  fold_left (fun acc p => f acc (fst p) (snd p))
    (combine (map h l) (map k l)) a
  = fold_left (fun acc d => f acc (h d) (k d)) l a.
Proof. revert a. induction l as [|d l IH]; intros a; simpl; auto. Qed.

(** The two accumulators of the [forEach] loop, each as its own running
    sum. *)
Lemma F64_regLoop_fold (mX mY : float) (data : list F64.point)
    (acc : F64.regAcc) :
  fold_left (F64.regStep mX mY) data acc =
  {| F64.regNumerator :=
       fold_left (fun a d => (a + (F64.x d - mX) * (F64.y d - mY))%float)
         data (F64.regNumerator acc);
     F64.regDenominator :=
       fold_left (fun a d => (a + (F64.x d - mX) * (F64.x d - mX))%float)
         data (F64.regDenominator acc) |}.
Proof.
  revert acc. induction data as [|d data IH]; intros acc; simpl.
  - destruct acc; reflexivity.
  - rewrite IH. reflexivity.
Qed.

(** X18.  [computeRegressionLine] in binary64, with [xs] and [ys] the
    coordinates of the sample: slope 0 and intercept 0 on the empty sample;
    slope 0 and intercept the mean of [ys] when the computed sum of squared
    deviations of [xs] is zero; otherwise the slope is the sum of centred
    products over the sum of centred squares of [xs], and the intercept is
    the mean of [ys] minus the slope times the mean of [xs]. *)
Theorem computeRegressionLine_two_pass (data : list F64.point) :
  let xs := map F64.x data in
  let ys := map F64.y data in
  let b := (F64.coDev xs ys / F64.sqDev xs)%float in
  F64.computeRegressionLine data =
  if (length data =? 0)%nat then {| F64.slope := 0; F64.intercept := 0 |}
  else if F64.isZero (F64.sqDev xs)
  then {| F64.slope := 0; F64.intercept := F64.mean ys |}
  else {| F64.slope := b;
          F64.intercept := (F64.mean ys - b * F64.mean xs)%float |}.
Proof.
  cbv zeta. unfold F64.computeRegressionLine. cbv zeta.
  destruct (length data =? 0)%nat; [reflexivity |].
  rewrite F64_regLoop_fold. cbn [F64.regNumerator F64.regDenominator].
  assert (HmX : (fold_left (fun acc d => acc + F64.x d) data 0
                 / F64.ofNat (length data))%float
                = F64.mean (map F64.x data)).
  { unfold F64.mean, F64.sumArray.
    rewrite fold_left_through_map, length_map. reflexivity. }
  assert (HmY : (fold_left (fun acc d => acc + F64.y d) data 0
                 / F64.ofNat (length data))%float
                = F64.mean (map F64.y data)).
  { unfold F64.mean, F64.sumArray.
    rewrite fold_left_through_map, length_map. reflexivity. }
  rewrite HmX, HmY.
  assert (Hxx : fold_left
                  (fun a d => (a + (F64.x d - F64.mean (map F64.x data))
                                   * (F64.x d - F64.mean (map F64.x data)))
                              %float) data 0%float
                = F64.sqDev (map F64.x data)).
  { unfold F64.sqDev. rewrite fold_left_through_map. reflexivity. }
  assert (Hxy : fold_left
                  (fun a d => (a + (F64.x d - F64.mean (map F64.x data))
                                   * (F64.y d - F64.mean (map F64.y data)))
                              %float) data 0%float
                = F64.coDev (map F64.x data) (map F64.y data)).
  { unfold F64.coDev. symmetry.
    apply (fold_combine_map
             (fun a u v => (a + (u - F64.mean (map F64.x data))
                                * (v - F64.mean (map F64.y data)))%float)). }
  rewrite Hxx, Hxy. reflexivity.
Qed.

(** The points [(0, 3)], [(1, 5)], [(2, 7)] of the line [y = 2 x + 3], and
    two points above the same x = 2. *)
Example F64_computeRegressionLine_three_points :
  F64.computeRegressionLine
    [ {| F64.x := 0; F64.y := 3 |}; {| F64.x := 1; F64.y := 5 |};
      {| F64.x := 2; F64.y := 7 |} ]
  = {| F64.slope := 2; F64.intercept := 3 |}
  /\ F64.computeRegressionLine
       [ {| F64.x := 2; F64.y := 3 |}; {| F64.x := 2; F64.y := 5 |} ]
     = {| F64.slope := 0; F64.intercept := 4 |}.
Proof. split; vm_compute; reflexivity. Qed.

(** The fallback is decided on the computed sum.  Three points above
    x = 0.1: the mean of the x values is rounded away from 0.1, the sum of
    squared deviations is positive, and the quotient is returned, about
    10.67, not the slope 0 of the fallback. *)
Example F64_computeRegressionLine_same_x_tenth :
  F64.computeRegressionLine
    [ {| F64.x := 0x1.999999999999ap-4; F64.y := 1 |};
      {| F64.x := 0x1.999999999999ap-4; F64.y := 2 |};
      {| F64.x := 0x1.999999999999ap-4; F64.y := 4 |} ]
  = {| F64.slope := 0x1.5555555555555p3;
       F64.intercept := 0x1.4444444444444p0 |}.
Proof. vm_compute. reflexivity. Qed.

(** * Further properties of the numerical core *)

(** ** Symmetry of the correlation *)

Lemma centred_products_swap (m1 m2 : R) (xs ys : list R) :
  Rsum (map (fun p => (fst p - m1) * (snd p - m2)) (combine xs ys))
  = Rsum (map (fun p => (fst p - m2) * (snd p - m1)) (combine ys xs)).
Proof.
  revert ys. induction xs as [|a xs IH]; intros [|b ys]; simpl; auto.
  rewrite IH. lra.
Qed.

Lemma coDev_sym (xs ys : list R) : coDev xs ys = coDev ys xs.
Proof. unfold coDev. apply centred_products_swap. Qed.

(** X2.  The correlation does not depend on the order of its two
    arguments. *)
Theorem computeCorrelation_sym (xs ys : list R) :
  length xs = length ys ->
  computeCorrelation xs ys = computeCorrelation ys xs.
Proof.
  intros Hlen.
  rewrite (computeCorrelation_sums xs ys Hlen).
  rewrite (computeCorrelation_sums ys xs (eq_sym Hlen)).
  rewrite <- Hlen, (coDev_sym ys xs), (Rmult_comm (sqDev ys)), orb_comm.
  reflexivity.
Qed.

Lemma computeCorrelation_sym_witness :
  computeCorrelation [0; 1; 3] [2; 0; 1]
  = computeCorrelation [2; 0; 1] [0; 1; 3].
Proof. apply computeCorrelation_sym. reflexivity. Defined.

(** * Further properties of the generator *)

Section DrawFacts.

Variable state : Type.
Variable source : state -> R * state.

Lemma after_succ_r (k : nat) (g : state) :
  after source (S k) g = after source k (snd (source g)).
Proof. unfold after. apply Nat.iter_succ_r. Qed.

Lemma after_add (j k : nat) (g : state) :
  after source (j + k) g = after source j (after source k g).
Proof. unfold after. apply Nat.iter_add. Qed.

Lemma draw_shift (j k : nat) (g : state) :
  draw source (j + k) g = draw source j (after source k g).
Proof. unfold draw. rewrite after_add. reflexivity. Qed.

End DrawFacts.

Arguments after_succ_r {state}.
Arguments after_add {state}.
Arguments draw_shift {state}.

Section GeneratorDraws.

Variable rng : Type.
Variable randn : rng -> R * rng.

(** The first loop, draw by draw: pair [i] is made of the draws [2 i] and
    [2 i + 1] counted from the state the loop starts in. *)
Lemma rawLoop_draws (c : R) (k : nat) (st : rawData rng) :
  xRaw (rawLoop randn c k st)
  = xRaw st
    ++ map (fun i => draw randn (2 * i) (rawGen st)) (seq 0 k)
  /\ yRaw (rawLoop randn c k st)
     = yRaw st
       ++ map (fun i => c * draw randn (2 * i) (rawGen st)
                        + sqrt (1 - c * c)
                          * draw randn (2 * i + 1) (rawGen st))
            (seq 0 k)
  /\ rawGen (rawLoop randn c k st) = after randn (2 * k) (rawGen st).
Proof.
  revert st. induction k as [|k IH]; intros st.
  - simpl. rewrite !app_nil_r. auto.
  - cbn [rawLoop].
    destruct (randn (rawGen st)) as [z1 g1] eqn:E1.
    destruct (randn g1) as [z2 g2] eqn:E2.
    assert (Hz1 : draw randn 0 (rawGen st) = z1)
      by (unfold draw, after; simpl; rewrite E1; reflexivity).
    assert (Hg1 : after randn 1 (rawGen st) = g1)
      by (unfold after; simpl; rewrite E1; reflexivity).
    assert (Hz2 : draw randn 1 (rawGen st) = z2)
      by (unfold draw; rewrite Hg1, E2; reflexivity).
    assert (Hg2 : after randn 2 (rawGen st) = g2).
    { change 2%nat with (1 + 1)%nat. rewrite after_add, Hg1.
      unfold after. simpl. rewrite E2. reflexivity. }
    destruct (IH (mkRaw (xRaw st ++ [z1])
                    (yRaw st ++ [c * z1 + sqrt (1 - c * c) * z2]) g2))
      as [Hx [Hy Hg]].
    cbn [xRaw yRaw rawGen] in Hx, Hy, Hg.
    assert (Hshift : forall j, draw randn j g2
                               = draw randn (j + 2) (rawGen st))
      by (intros j; rewrite draw_shift, Hg2; reflexivity).
    rewrite Hx, Hy, Hg. rewrite <- !app_assoc.
    cbn [seq map]. rewrite <- (seq_shift k 0), !map_map.
    change (2 * 0 + 1)%nat with 1%nat. change (2 * 0)%nat with 0%nat.
    rewrite Hz1, Hz2.
    repeat split.
    + f_equal. cbn [app]. f_equal. apply map_ext. intros i.
      rewrite Hshift. replace (2 * i + 2)%nat with (2 * S i)%nat by lia.
      reflexivity.
    + f_equal. cbn [app]. f_equal. apply map_ext. intros i.
      rewrite !Hshift. replace (2 * i + 2)%nat with (2 * S i)%nat by lia.
      replace (2 * i + 1 + 2)%nat with (2 * S i + 1)%nat by lia.
      reflexivity.
    + rewrite <- Hg2, <- after_add. f_equal. lia.
Qed.

(** X9.  The first loop reads the random source in order: raw [x] number
    [i] is draw [2 i], raw [y] number [i] is [corr] times draw [2 i] plus
    [sqrt (1 - corr^2)] times draw [2 i + 1], and the generator is returned
    after [2 max(n, 0)] draws; in particular the raw x values and the
    consumption of the source do not depend on [corr].  For [n <= 0] the
    sample is empty and the generator untouched. *)
Theorem generateCorrelatedData_draws (c : R) (n : Z) (xMin xMax : R)
    (g : rng) :
  let k := Z.to_nat n in
  let raw := drawRaw randn c n g in
  xRaw raw = map (fun i => draw randn (2 * i) g) (seq 0 k)
  /\ yRaw raw
     = map (fun i => c * draw randn (2 * i) g
                     + sqrt (1 - c * c) * draw randn (2 * i + 1) g)
         (seq 0 k)
  /\ snd (generateCorrelatedData randn c n xMin xMax g)
     = after randn (2 * k) g
  /\ ((n <= 0)%Z -> generateCorrelatedData randn c n xMin xMax g = ([], g)).
Proof.
  cbv zeta. unfold generateCorrelatedData, drawRaw, iterations.
  destruct (rawLoop_draws c (Z.to_nat n) (mkRaw [] [] g)) as [Hx [Hy Hg]].
  cbn [xRaw yRaw rawGen app] in Hx, Hy, Hg.
  repeat split; auto.
  intros Hn. replace (Z.to_nat n) with 0%nat by lia. reflexivity.
Qed.

Lemma yRaw_target_one (n : Z) (g : rng) :
  yRaw (drawRaw randn 1 n g) = xRaw (drawRaw randn 1 n g).
Proof.
  unfold drawRaw.
  destruct (rawLoop_draws 1 (iterations n) (mkRaw [] [] g)) as [Hx [Hy _]].
  cbn [xRaw yRaw rawGen app] in Hx, Hy. rewrite Hx, Hy.
  apply map_ext. intros i.
  replace (1 - 1 * 1) with 0 by lra. rewrite sqrt_0. lra.
Qed.

Lemma in_combine_diag {A : Type} (l : list A) (a b : A) :
  In (a, b) (combine l l) -> a = b.
Proof.
  induction l as [|c l IH]; simpl; [intros [] |].
  intros [H | H]; [inversion H; reflexivity | auto].
Qed.

(** X11.  With target correlation 1 every generated point lies on the
    diagonal [y = x]: the raw y value is [1 * z1 + sqrt (1 - 1 * 1) * z2],
    and both coordinates are rescaled alike. *)
Theorem generateCorrelatedData_target_one (n : Z) (xMin xMax : R) (g : rng) :
  Forall (fun d => y d = x d)
    (fst (generateCorrelatedData randn 1 n xMin xMax g)).
Proof.
  unfold generateCorrelatedData. cbn [fst].
  destruct (drawRaw_length rng randn 1 n g) as [Hx _].
  rewrite yRaw_target_one. unfold iterations. rewrite <- Hx.
  rewrite rescale_combine by reflexivity.
  apply Forall_forall. intros d Hd. apply in_map_iff in Hd.
  destruct Hd as [[a b] [<- Hab]]. cbn [x y fst snd].
  rewrite (in_combine_diag _ _ _ Hab). reflexivity.
Qed.

End GeneratorDraws.

(** The further generator properties on the draws 0, 1, 2, 3, ... *)

Lemma generateCorrelatedData_draws_witness :
  generateCorrelatedData countingDraws (1 / 2) (-3) 0 10 7%nat = ([], 7%nat).
Proof.
  apply (proj2 (proj2 (proj2
           (generateCorrelatedData_draws nat countingDraws (1 / 2) (-3) 0 10
              7%nat)))).
  lia.
Defined.

(** * randn *)

Section RandnFacts.

Variable urng : Type.
Variable random : urng -> R * urng.

(** The loop is not entered on a non-zero value. *)
Lemma whileZero_nonzero (fuel : nat) (u : R) (g : urng) :
  u <> 0 -> BoxMuller.whileZero random fuel u g = Some (u, g).
Proof.
  intros Hu. apply isZero_false in Hu.
  destruct fuel; simpl; rewrite Hu; reflexivity.
Qed.

Lemma isZero_0 : isZero 0 = true.
Proof. apply isZero_true. reflexivity. Qed.

Lemma firstNonzeroAt_tail (k : nat) (g : urng) :
  firstNonzeroAt random (S k) g ->
  fst (random g) = 0 /\ firstNonzeroAt random k (snd (random g)).
Proof.
  intros [Hz Hnz]. split.
  - apply (Hz 0%nat). lia.
  - split.
    + intros j Hj. unfold draw. rewrite <- after_succ_r.
      apply (Hz (S j)). lia.
    + unfold draw. rewrite <- after_succ_r. exact Hnz.
Qed.

(** The loop returns the first non-zero draw, and the source just after
    it, as soon as the fuel covers the zero draws before it. *)
Lemma whileZero_first (k fuel : nat) (g : urng) :
  firstNonzeroAt random k g -> (k < fuel)%nat ->
  BoxMuller.whileZero random fuel 0 g
  = Some (draw random k g, after random (S k) g).
Proof.
  revert fuel g. induction k as [|k IH]; intros fuel g Hfirst Hlt;
    (destruct fuel as [|fuel]; [lia |]); cbn [BoxMuller.whileZero];
    rewrite isZero_0; destruct (random g) as [u' g'] eqn:E.
  - destruct Hfirst as [_ Hnz]. unfold draw, after in *. simpl in *.
    rewrite E in *. simpl in *. apply whileZero_nonzero. exact Hnz.
  - destruct (firstNonzeroAt_tail k g Hfirst) as [Hz Htail].
    rewrite E in Hz, Htail. simpl in Hz, Htail. subst u'.
    rewrite (IH fuel g' Htail) by lia.
    unfold draw.
    rewrite (after_succ_r random (S k) g), (after_succ_r random k g), E.
    reflexivity.
Qed.

(** Conversely a returned value is the first non-zero draw. *)
Lemma whileZero_inv (fuel : nat) (g g' : urng) (v : R) :
  BoxMuller.whileZero random fuel 0 g = Some (v, g') ->
  exists k, (k < fuel)%nat /\ firstNonzeroAt random k g
            /\ v = draw random k g /\ g' = after random (S k) g.
Proof.
  revert g. induction fuel as [|fuel IH]; intros g; simpl;
    rewrite isZero_0; [discriminate |].
  destruct (random g) as [u' g1] eqn:E.
  destruct (Req_dec_T u' 0) as [Hu | Hu].
  - subst u'. intros H. destruct (IH g1 H) as [k [Hk [[Hz Hnz] [Hv Hg]]]].
    exists (S k). split; [lia |].
    assert (Hd : forall j, draw random (S j) g = draw random j g1)
      by (intros j; unfold draw; rewrite after_succ_r, E; reflexivity).
    repeat split.
    + intros [|j] Hj; [unfold draw, after; simpl; rewrite E; reflexivity |].
      rewrite Hd. apply Hz. lia.
    + rewrite Hd. exact Hnz.
    + rewrite Hd. exact Hv.
    + rewrite after_succ_r, E. exact Hg.
  - rewrite (whileZero_nonzero fuel u' g1 Hu). intros H.
    inversion H; subst. exists 0%nat.
    assert (Hd : draw random 0 g = v)
      by (unfold draw, after; simpl; rewrite E; reflexivity).
    repeat split; try lia.
    + rewrite Hd. exact Hu.
    + symmetry. exact Hd.
    + unfold after. simpl. rewrite E. reflexivity.
Qed.

(** X13.  [randn] skips zero draws: when the first non-zero draw [u] and
    the first non-zero draw [v] after it are reached within the fuel of
    their loops, it returns [sqrt (-2 ln u) * cos (2 pi v)] and leaves the
    source just after [v]. *)
Theorem randn_returns (k1 k2 fuel : nat) (g : urng) :
  firstNonzeroAt random k1 g ->
  firstNonzeroAt random k2 (after random (S k1) g) ->
  (k1 < fuel)%nat -> (k2 < fuel)%nat ->
  BoxMuller.randn random fuel g
  = Some (sqrt (-2 * ln (draw random k1 g))
          * cos (2 * PI * draw random k2 (after random (S k1) g)),
          after random (S k2) (after random (S k1) g)).
Proof.
  intros H1 H2 Hk1 Hk2. unfold BoxMuller.randn.
  rewrite (whileZero_first k1 fuel g H1 Hk1).
  rewrite (whileZero_first k2 fuel _ H2 Hk2). reflexivity.
Qed.

(** X14.  Whatever [randn] returns comes from two non-zero draws [u] and
    [v], so the logarithm is never taken of 0; and when [Math.random] stays
    in [[0, 1)], the argument of the square root is positive and the
    result is at most [sqrt (-2 ln u)] in absolute value. *)
Theorem randn_safe (fuel : nat) (g g' : urng) (z : R) :
  BoxMuller.randn random fuel g = Some (z, g') ->
  exists k1 k2,
    let u := draw random k1 g in
    let v := draw random k2 (after random (S k1) g) in
    firstNonzeroAt random k1 g
    /\ firstNonzeroAt random k2 (after random (S k1) g)
    /\ u <> 0 /\ v <> 0
    /\ z = sqrt (-2 * ln u) * cos (2 * PI * v)
    /\ g' = after random (S k2) (after random (S k1) g)
    /\ ((forall s, 0 <= fst (random s) < 1) ->
        0 < -2 * ln u /\ Rabs z <= sqrt (-2 * ln u)).
Proof.
  unfold BoxMuller.randn.
  destruct (BoxMuller.whileZero random fuel 0 g) as [[u g1] |] eqn:E1;
    [| discriminate].
  destruct (BoxMuller.whileZero random fuel 0 g1) as [[v g2] |] eqn:E2;
    [| discriminate].
  intros H. inversion H; subst z g'. clear H.
  destruct (whileZero_inv fuel g g1 u E1) as [k1 [_ [F1 [Hu Hg1]]]].
  subst g1.
  destruct (whileZero_inv fuel _ g2 v E2) as [k2 [_ [F2 [Hv Hg2]]]].
  exists k1, k2. cbv zeta. rewrite <- Hu, <- Hv.
  assert (Hu0 : u <> 0) by (rewrite Hu; apply F1).
  assert (Hv0 : v <> 0) by (rewrite Hv; apply F2).
  split; [exact F1 |]. split; [exact F2 |].
  split; [exact Hu0 |]. split; [exact Hv0 |].
  split; [reflexivity |]. split; [exact Hg2 |].
  intros Hrange.
  pose proof (Hrange (after random k1 g)) as Hr.
  fold (draw random k1 g) in Hr. rewrite <- Hu in Hr.
  pose proof (ln_increasing u 1 ltac:(lra) ltac:(lra)) as Hln.
  rewrite ln_1 in Hln.
  split; [lra |].
  rewrite Rabs_mult, (Rabs_right (sqrt _)) by (apply Rle_ge, sqrt_pos).
  pose proof (sqrt_pos (-2 * ln u)) as Hs.
  pose proof (COS_bound (2 * PI * v)) as Hc.
  assert (Hcos : Rabs (cos (2 * PI * v)) <= 1) by (apply Rabs_le; lra).
  nra.
Qed.

End RandnFacts.

(** The source that draws 0 once and 1/2 ever after: [randn] resamples the
    zero and uses the second and third draws. *)
Lemma zeroThenHalf_first :
  firstNonzeroAt BoxMuller.zeroThenHalf 1 0%nat
  /\ firstNonzeroAt BoxMuller.zeroThenHalf 0 2%nat.
Proof.
  unfold firstNonzeroAt, draw, after. simpl. repeat split; try lra.
  - intros [|j] Hj; [reflexivity | lia].
  - intros j Hj. lia.
Qed.

Lemma randn_returns_witness :
  BoxMuller.randn BoxMuller.zeroThenHalf 2 0%nat
  = Some (sqrt (-2 * ln (1 / 2)) * cos (2 * PI * (1 / 2)), 3%nat).
Proof.
  exact (randn_returns nat BoxMuller.zeroThenHalf 1 0 2 0%nat
           (proj1 zeroThenHalf_first) (proj2 zeroThenHalf_first)
           ltac:(lia) ltac:(lia)).
Defined.

Lemma zeroThenHalf_randn :
  BoxMuller.randn BoxMuller.zeroThenHalf 2 0%nat
  = Some (sqrt (-2 * ln (1 / 2)) * cos (2 * PI * (1 / 2)), 3%nat).
Proof.
  assert (Hh : isZero (1 / 2) = false) by (apply isZero_false; lra).
  unfold BoxMuller.randn. simpl. rewrite !isZero_0, !Hh. simpl.
  rewrite ?Hh. reflexivity.
Qed.

Lemma randn_safe_witness :
  exists k1 k2,
    let u := draw BoxMuller.zeroThenHalf k1 0%nat in
    let v := draw BoxMuller.zeroThenHalf k2
               (after BoxMuller.zeroThenHalf (S k1) 0%nat) in
    firstNonzeroAt BoxMuller.zeroThenHalf k1 0%nat
    /\ firstNonzeroAt BoxMuller.zeroThenHalf k2
         (after BoxMuller.zeroThenHalf (S k1) 0%nat)
    /\ u <> 0 /\ v <> 0
    /\ sqrt (-2 * ln (1 / 2)) * cos (2 * PI * (1 / 2))
       = sqrt (-2 * ln u) * cos (2 * PI * v)
    /\ 3%nat = after BoxMuller.zeroThenHalf (S k2)
                 (after BoxMuller.zeroThenHalf (S k1) 0%nat)
    /\ ((forall s, 0 <= fst (BoxMuller.zeroThenHalf s) < 1) ->
        0 < -2 * ln u
        /\ Rabs (sqrt (-2 * ln (1 / 2)) * cos (2 * PI * (1 / 2)))
           <= sqrt (-2 * ln u)).
Proof.
  exact (randn_safe nat BoxMuller.zeroThenHalf 2 0%nat 3%nat _
           zeroThenHalf_randn).
Defined.

(** * Further properties of the component *)

(** X17.  Along every sequence of events from a state in which
    [showDistances] equals [fitLine] (the initial state is one),
    [showDistances] still equals [fitLine]; so the chart receives the
    residual lines, one per sample point, exactly in the Fitted mode and
    none in Baseline. *)
Theorem run_keeps_flags_together (es : list event) (h : hooks)
    (data : list point) :
  showDistances h = fitLine h ->
  let h' := Handlers.run es h in
  showDistances h' = fitLine h'
  /\ App.drawnResiduals h' data
     = match displayMode h' with
       | Fitted => App.residualLines data
       | Baseline => []
       end
  /\ length (App.drawnResiduals h' data)
     = match displayMode h' with
       | Fitted => length data
       | Baseline => 0%nat
       end.
Proof.
  intros Hinv. cbv zeta.
  assert (Hrun : showDistances (Handlers.run es h)
                 = fitLine (Handlers.run es h)).
  { revert h Hinv. induction es as [|e es IH]; intros h Hinv; simpl.
    - exact Hinv.
    - apply IH. apply handle_showDistances. }
  split; [exact Hrun |].
  rewrite (drawnResiduals_by_mode _ data Hrun).
  split; [reflexivity |].
  destruct (displayMode (Handlers.run es h)); [reflexivity |].
  unfold App.residualLines. apply length_map.
Qed.

Lemma run_keeps_flags_together_witness :
  let h' := Handlers.run [CorrChange (1 / 2); FitClick] App.initial in
  let data := [ {| x := 0; y := 1 |}; {| x := 2; y := 5 |} ] in
  showDistances h' = fitLine h'
  /\ App.drawnResiduals h' data
     = match displayMode h' with
       | Fitted => App.residualLines data
       | Baseline => []
       end
  /\ length (App.drawnResiduals h' data)
     = match displayMode h' with
       | Fitted => length data
       | Baseline => 0%nat
       end.
Proof.
  cbv zeta. apply run_keeps_flags_together. reflexivity.
Defined.
